(** * Sliding-window Z-score anomaly detection (main.py)

    A shallow embedding of the detection kernel of [main.py]:
    - Python/NumPy floats are IEEE-754 binary64 values, here Rocq's
      primitive floats ([PrimFloat.float]) with their kernel arithmetic;
    - [collections.deque] with a [maxlen] is a record holding the items
      oldest-first together with the bound;
    - Python exceptions are the left injection of a small error monad.

    Excluded, as in the program's own layering: the random generator
    [data_stream] (its output is an arbitrary list of samples here) and
    the matplotlib objects touched by [update]. *)

From Stdlib Require Import List Arith Lia ZArith Bool.
From Stdlib Require Import Floats Uint63.
From Stdlib Require Import QArith Qcanon.
Import ListNotations.
Close Scope Qc_scope.
Close Scope Q_scope.

(** Decimal literals denote the nearest binary64 value, as they do in
    Python. *)
Set Warnings "-inexact-float".

(** ** Python exceptions as an error monad *)

Inductive py_exception : Type :=
| ValueError          (* deque(..., maxlen=-1) *)
| IndexError          (* window[-1] on an empty deque *)
| ZeroDivisionError.  (* float / 0.0 *)

Definition py (A : Type) : Type := (py_exception + A)%type.

Definition ret {A} (a : A) : py A := inr a.
Definition raise {A} (e : py_exception) : py A := inl e.
Definition bind {A B} (m : py A) (k : A -> py B) : py B :=
  match m with
  | inl e => inl e
  | inr a => k a
  end.

Declare Scope py_scope.
Delimit Scope py_scope with py.
Notation "x <- m ;; k" := (bind m (fun x => k))
  (at level 61, m at next level, right associativity) : py_scope.

Definition returns {A} (m : py A) : Prop := exists a, m = ret a.

(** ** Floats *)

Module F.
Local Open Scope float_scope.

Definition zero : float := 0.
Definition nan : float := PrimFloat.nan.

(** [float(n)] for a count [n] (a container length, far below 2^63). *)
Definition of_count (n : nat) : float :=
  PrimFloat.of_uint63 (Uint63.of_Z (Z.of_nat n)).

(** Python's [x / y] on floats: raises on a zero divisor. *)
Definition truediv (x y : float) : py float :=
  if y =? 0 then raise ZeroDivisionError else ret (x / y).
End F.

(** ** [collections.deque] with [maxlen] *)

Record deque : Type := Deque {
  items  : list float;   (* oldest first; [items] = list(d) *)
  maxlen : nat
}.

Definition len (d : deque) : nat := length (items d).

(** [d.append(x)]: the item is added on the right and, when the bound is
    then exceeded, one item is dropped on the left. *)
Definition append (d : deque) (x : float) : deque :=
  let l := items d ++ [x] in
  Deque (if maxlen d <? length l then tl l else l) (maxlen d).

(** [deque(iterable, maxlen=n)]: a negative bound is a [ValueError];
    otherwise the items are appended one at a time. *)
Definition deque_new (iterable : list float) (n : Z) : py deque :=
  if (n <? 0)%Z then raise ValueError
  else ret (fold_left append iterable (Deque [] (Z.to_nat n))).

(** [window[-1]] *)
Definition getitem_last (d : deque) : py float :=
  match rev (items d) with
  | [] => raise IndexError
  | x :: _ => ret x
  end.

(** [[x] * n] on lists; a non-positive [n] gives the empty list. *)
Definition list_mul (x : float) (n : Z) : list float := repeat x (Z.to_nat n).

(** ** The NumPy reductions called by [detect_anomaly]

    [np.mean(a)] is [add.reduce(a) / n] and [np.var(a, ddof)] is
    [add.reduce((a - a.mean())**2) / max(n - ddof, 0)], the counts being
    converted to the element type; [np.std] is its square root.

    [add.reduce] on a contiguous array adds NumPy's pairwise sum of the
    array to the identity of [add]. The pairwise sum is a plain loop
    below 8 items, eight interleaved accumulators combined as a tree up
    to 128 items, and above that the sum of the pairwise sums of two
    parts, the first a multiple of 8 long. The order of the additions is
    part of the result in floating point, so it is kept as it is.

    The reductions are written once over the arithmetic they run on:
    binary64 for the program, the rationals for what they compute when
    nothing is rounded. *)

Module Reduce.

Record arith (T : Type) : Type := Arith {
  zero : T;
  add : T -> T -> T;
  sub : T -> T -> T;
  mul : T -> T -> T;
  div : T -> T -> T;
  of_count : nat -> T
}.
Arguments Arith {T}.
Arguments zero {T}.
Arguments add {T}.
Arguments sub {T}.
Arguments mul {T}.
Arguments div {T}.
Arguments of_count {T}.

Section Reductions.
Context {T : Type} (A : arith T).

(** [for (i = 0; i < n; i++) res += a[i]] *)
Definition loop_sum (res : T) (a : list T) : T := fold_left (add A) a res.

(** [r[j] += a[i + j]] for the eight accumulators. *)
Fixpoint add_lanes (r b : list T) : list T :=
  match r, b with
  | x :: r', y :: b' => add A x y :: add_lanes r' b'
  | _, _ => []
  end.

(** [k] rounds of the unrolled loop; what is left of the array is
    returned with the accumulators. *)
Fixpoint unrolled (k : nat) (r a : list T) : list T * list T :=
  match k with
  | 0 => (r, a)
  | S k' => unrolled k' (add_lanes r (firstn 8 a)) (skipn 8 a)
  end.

(** [((r[0] + r[1]) + (r[2] + r[3])) + ((r[4] + r[5]) + (r[6] + r[7]))] *)
Definition combine_lanes (r : list T) : T :=
  match r with
  | [r0; r1; r2; r3; r4; r5; r6; r7] =>
      add A (add A (add A r0 r1) (add A r2 r3))
            (add A (add A r4 r5) (add A r6 r7))
  | _ => zero A
  end.

(** The branch for 8 to 128 items. *)
Definition block_sum (a : list T) : T :=
  let (r, rest) := unrolled (length a / 8 - 1) (firstn 8 a) (skipn 8 a) in
  loop_sum (combine_lanes r) rest.

Fixpoint pairwise_sum (fuel : nat) (a : list T) : T :=
  let n := length a in
  if n <? 8 then loop_sum (zero A) a
  else if n <=? 128 then block_sum a
  else
    match fuel with
    | 0 => block_sum a
    | S fuel' =>
        let n2 := n / 2 - (n / 2) mod 8 in
        add A (pairwise_sum fuel' (firstn n2 a))
              (pairwise_sum fuel' (skipn n2 a))
    end.

Definition sum (a : list T) : T :=
  add A (zero A) (pairwise_sum (length a) a).

Definition mean (a : list T) : T := div A (sum a) (of_count A (length a)).

Definition var (ddof : nat) (a : list T) : T :=
  let arrmean := div A (sum a) (of_count A (length a)) in
  let x := map (fun v => sub A v arrmean) a in
  let x := map (fun v => mul A v v) x in
  div A (sum x) (of_count A (Nat.max (length a - ddof) 0)).
End Reductions.
End Reduce.

Module np.
Local Open Scope float_scope.

(** [np.float64] arithmetic. The identity of [add] is [0.0]; an
    accumulation started at [-0.0] gives another result only on an array
    of negative zeros alone. *)
Definition float64 : Reduce.arith float :=
  Reduce.Arith 0 PrimFloat.add PrimFloat.sub PrimFloat.mul PrimFloat.div
    F.of_count.

Definition sum (a : list float) : float := Reduce.sum float64 a.

Definition mean (a : list float) : float := Reduce.mean float64 a.

Definition var (ddof : nat) (a : list float) : float :=
  Reduce.var float64 ddof a.

Definition std (ddof : nat) (a : list float) : float :=
  PrimFloat.sqrt (var ddof a).
End np.

(** ** [detect_anomaly] *)

Local Open Scope py_scope.

Definition default_threshold : float := 3.0%float.

Definition detect_anomaly (window : deque) (threshold : float)
  : py (bool * float) :=
  if len window <? 2 then ret (false, F.zero)
  else
    let mean := np.mean (items window) in
    let std := np.std 0 (items window) in
    if (std =? 0)%float then ret (false, F.zero)
    else
      latest_value <- getitem_last window ;;
      z_score <- F.truediv (latest_value - mean)%float std ;;
      ret ((threshold <? PrimFloat.abs z_score)%float, z_score).

(** ** [update] and [main]

    The state shared by successive calls of [update] is the pair of
    deques created by [main] and passed through [fargs]; the generator is
    the list of samples still to come. *)

Record state : Type := State {
  window    : deque;
  anomalies : deque
}.

(** One tick: [window.append(data)], then [detect_anomaly(window)] with
    the default threshold, then the anomaly marker. The classification is
    returned next to the new state so that each tick can be observed. *)
Definition update (st : state) (data : float) : py (state * (bool * float)) :=
  let window' := append (window st) data in
  r <- detect_anomaly window' default_threshold ;;
  let anomalies' := append (anomalies st) (if fst r then data else F.nan) in
  ret (State window' anomalies', r).

(** The deques built by [main] for a given [window_size]. *)
Definition init (window_size : Z) : py state :=
  w <- deque_new (list_mul F.zero window_size) window_size ;;
  a <- deque_new (list_mul F.nan window_size) window_size ;;
  ret (State w a).

(** The locals of [main]. Its [threshold] is not passed on: [update]
    calls [detect_anomaly] with the default, the same 3.0. *)
Module main.
Definition window_size : Z := 100.
Definition threshold : float := 3.0%float.
Definition start : py state := init window_size.
End main.

(** The animation loop: [update] once per sample, collecting the
    classifications in order. *)
Fixpoint run (st : state) (stream : list float)
  : py (state * list (bool * float)) :=
  match stream with
  | [] => ret (st, [])
  | data :: rest =>
      sr <- update st data ;;
      sl <- run (fst sr) rest ;;
      ret (fst sl, snd sr :: snd sl)
  end.

(** Pushing a whole sequence into a deque. *)
Definition extend (d : deque) (vs : list float) : deque := fold_left append vs d.

(** ** Notions used in the statements *)

(** The last [n] items of a list, oldest first. *)
Definition lastn (n : nat) (l : list float) : list float :=
  skipn (length l - n) l.

(** A deque respects its bound. Every deque made by [deque_new] and
    changed by [append] only does. *)
Definition bounded (d : deque) : Prop := len d <= maxlen d.

(** The successive windows seen by [detect_anomaly], one per sample. *)
Fixpoint ticks (w : deque) (stream : list float) : list deque :=
  match stream with
  | [] => []
  | data :: rest => append w data :: ticks (append w data) rest
  end.

(** What the very first call of [update] returns, for a window built with
    a given size. *)
Definition first_classification (n : Z) (sample : float) : py (bool * float) :=
  st <- init n ;; sr <- update st sample ;; ret (snd sr).

(** A binary64 value that is NaN or an infinity, read on its
    specification; [nonfinite x] is [not math.isfinite(x)]. *)
Definition SFnonfinite (s : SpecFloat.spec_float) : bool :=
  match s with
  | SpecFloat.S754_nan | SpecFloat.S754_infinity _ => true
  | _ => false
  end.

Definition nonfinite (x : float) : Prop := SFnonfinite (Prim2SF x) = true.

(** The value [update] appends to [anomalies] for a sample and its
    classification: [data if is_anomaly else np.nan]. *)
Definition marker (data : float) (r : bool * float) : float :=
  if fst r then data else F.nan.

Definition markers (stream : list float) (rs : list (bool * float))
  : list float :=
  map (fun p => marker (fst p) (snd p)) (combine stream rs).

(** A marker is NaN, or it is the sample at the same position of the
    window and that sample is a finite number. *)
Definition marked (v a : float) : Prop :=
  a = F.nan \/ (a = v /\ PrimFloat.is_finite v = true).

Definition aligned (st : state) : Prop :=
  maxlen (anomalies st) = maxlen (window st) /\
  Forall2 marked (items (window st)) (items (anomalies st)).

(** ** The statistics named by the specification

    Written from the glossary, in exact arithmetic: the arithmetic mean
    is the sum of the values over their count; the population variance
    is the average squared deviation from the mean, the divisor being
    the count; the sample convention divides by the count minus one.
    The standard deviation is the square root of the variance. *)

Module Exact.
Local Open Scope Qc_scope.
(** A count as a rational. *)
Definition count (n : nat) : Qc := Q2Qc (inject_Z (Z.of_nat n)).
Definition rational : Reduce.arith Qc :=
  Reduce.Arith 0 Qcplus Qcminus Qcmult Qcdiv count.
(** The sum of all the items. *)
Fixpoint total (xs : list Qc) : Qc :=
  match xs with
  | [] => 0
  | x :: rest => x + total rest
  end.
Definition arithmetic_mean (xs : list Qc) : Qc := total xs / count (length xs).
Definition squared_deviations (xs : list Qc) : list Qc :=
  map (fun x => (x - arithmetic_mean xs) * (x - arithmetic_mean xs)) xs.
Definition population_variance (xs : list Qc) : Qc :=
  total (squared_deviations xs) / count (length xs).
Definition sample_variance (xs : list Qc) : Qc :=
  total (squared_deviations xs) / count (length xs - 1).
End Exact.

Module Spec.
Local Open Scope float_scope.

(** Steps 4 and 5 of [classify], from a given mean and deviation. *)
Definition z_score (sample mean std : float) : float :=
  (sample - mean) / std.

Definition decide (sample mean std threshold : float) : bool * float :=
  if std =? 0 then (false, 0)
  else (threshold <? PrimFloat.abs (z_score sample mean std),
        z_score sample mean std).
End Spec.

(** * Properties *)

(** ** Comparisons of binary64 values

    The primitive comparisons are specified on [spec_float] by the
    standard library; the facts needed about [>] and [==] are derived
    from that specification. *)

Section FloatOrder.
Import SpecFloat.

Lemma SFcompare_swap (x y : spec_float) :
  SFcompare y x = option_map CompOpp (SFcompare x y).
Proof.
  destruct x as [sx|sx| |sx mx ex], y as [sy|sy| |sy my ey];
    try destruct sx; try destruct sy; try reflexivity; simpl.
  - rewrite (Z.compare_antisym ey ex).
    destruct (ey ?= ex)%Z; simpl; try reflexivity.
    rewrite (Pos.compare_cont_antisym mx my Eq). reflexivity.
  - rewrite (Z.compare_antisym ey ex).
    destruct (ey ?= ex)%Z; simpl; try reflexivity.
    rewrite (Pos.compare_cont_antisym mx my Eq). simpl.
    now destruct (Pos.compare_cont Eq mx my).
Qed.

Lemma SFeqb_not_SFltb (x y : spec_float) :
  SFeqb x y = true -> SFltb y x = false.
Proof.
  unfold SFeqb, SFltb. rewrite (SFcompare_swap x y).
  destruct (SFcompare x y) as [[ | | ]|]; simpl; congruence.
Qed.

Lemma SFeqb_nonneg_abs (z t : spec_float) :
  SFeqb z t = true -> SFleb (S754_zero false) t = true ->
  SFeqb (SFabs z) t = true.
Proof.
  unfold SFeqb, SFleb.
  destruct z as [sz|sz| |sz mz ez], t as [st|st| |st mt et];
    try destruct sz; try destruct st; simpl; congruence.
Qed.
End FloatOrder.

Lemma float_eqb_not_ltb (x y : float) :
  (x =? y)%float = true -> (y <? x)%float = false.
Proof.
  rewrite FloatAxioms.eqb_spec, FloatAxioms.ltb_spec. apply SFeqb_not_SFltb.
Qed.

Lemma float_eqb_nonneg_abs (z t : float) :
  (z =? t)%float = true -> (0 <=? t)%float = true ->
  (PrimFloat.abs z =? t)%float = true.
Proof.
  rewrite !FloatAxioms.eqb_spec, FloatAxioms.leb_spec, FloatAxioms.abs_spec. apply SFeqb_nonneg_abs.
Qed.

(** ** NumPy's reductions *)

Section ReduceShape.
Import Reduce.
Context {T : Type} (A : arith T).

Lemma add_lanes_length (r : list T) : forall b,
  length r = length b -> length (add_lanes A r b) = length r.
Proof.
  induction r as [|x r IH]; intros [|y b] H; simpl in *; try discriminate;
    [reflexivity|]. f_equal. apply IH. lia.
Qed.

Lemma firstn_8_length (a : list T) : 8 <= length a -> length (firstn 8 a) = 8.
Proof. intros H. rewrite length_firstn. lia. Qed.

(** The halves of an array of more than 128 items are shorter than it, so
    a fuel of the array's length is never used up. *)
Lemma pairwise_sum_fuel f1 : forall f2 a,
  length a <= f1 -> length a <= f2 ->
  pairwise_sum A f1 a = pairwise_sum A f2 a.
Proof.
  induction f1 as [|f1 IH]; intros [|f2] a H1 H2; cbn [pairwise_sum];
    destruct (Nat.ltb_spec (length a) 8) as [?|H8]; try reflexivity;
    destruct (Nat.leb_spec (length a) 128) as [?|Hbig]; try reflexivity;
    try lia.
  assert (Hhalf : length a / 2 < length a) by (apply Nat.div_lt; lia).
  assert (Hpos : 0 < length a / 2 - (length a / 2) mod 8).
  { pose proof (Nat.mod_upper_bound (length a / 2) 8).
    assert (64 <= length a / 2) by (apply Nat.div_le_lower_bound; lia). lia. }
  f_equal; apply IH; rewrite ?length_firstn, ?length_skipn; lia.
Qed.
End ReduceShape.

(** *** A summand that absorbs addition decides the sum *)

Section Absorbing.
Import Reduce.
Context {T : Type} (A : arith T) (P : T -> Prop).
Hypothesis add_l : forall x y, P x -> P (add A x y).
Hypothesis add_r : forall x y, P y -> P (add A x y).

Lemma loop_sum_absorbs a : forall res,
  P res \/ Exists P a -> P (loop_sum A res a).
Proof.
  unfold loop_sum.
  induction a as [|x a IH]; intros res [H|H]; cbn [fold_left].
  - exact H.
  - inversion H.
  - apply IH. left. now apply add_l.
  - apply IH. inversion H; subst; [left; now apply add_r|now right].
Qed.

Lemma add_lanes_absorbs r : forall b,
  length r = length b -> Exists P r \/ Exists P b ->
  Exists P (add_lanes A r b).
Proof.
  induction r as [|x r IH]; intros [|y b] Hl H; simpl in *;
    try discriminate.
  - destruct H as [H|H]; inversion H.
  - assert (Hl' : length r = length b) by lia.
    destruct H as [H|H]; inversion H; subst.
    + left. now apply add_l.
    + right. apply IH; auto.
    + left. now apply add_r.
    + right. apply IH; auto.
Qed.

Lemma Exists_firstn_skipn n (a : list T) :
  Exists P a -> Exists P (firstn n a) \/ Exists P (skipn n a).
Proof.
  intros H. rewrite <- (firstn_skipn n a) in H. now apply Exists_app in H.
Qed.

Lemma unrolled_absorbs k : forall r a,
  length r = 8 -> 8 * k <= length a -> Exists P r \/ Exists P a ->
  length (fst (unrolled A k r a)) = 8 /\
  (Exists P (fst (unrolled A k r a)) \/ Exists P (snd (unrolled A k r a))).
Proof.
  induction k as [|k IH]; intros r a Hr Ha H; cbn [unrolled fst snd];
    [split; assumption|].
  assert (H8 : length (firstn 8 a) = 8) by (rewrite length_firstn; lia).
  apply IH.
  - rewrite add_lanes_length; [exact Hr|congruence].
  - rewrite length_skipn. lia.
  - destruct H as [H|H].
    + left. apply add_lanes_absorbs; [congruence|now left].
    + destruct (Exists_firstn_skipn 8 a H) as [H'|H'].
      * left. apply add_lanes_absorbs; [congruence|now right].
      * now right.
Qed.

Lemma combine_lanes_absorbs r :
  length r = 8 -> Exists P r -> P (combine_lanes A r).
Proof.
  intros H HP. do 9 (destruct r as [|? r]; try discriminate H). simpl.
  repeat match goal with
         | H : Exists P (_ :: _) |- _ => inversion H; clear H; subst
         | H : Exists P [] |- _ => inversion H
         end; auto 6.
Qed.

Lemma block_sum_absorbs a :
  8 <= length a -> Exists P a -> P (block_sum A a).
Proof.
  intros H HP. unfold block_sum.
  destruct (unrolled_absorbs (length a / 8 - 1) (firstn 8 a) (skipn 8 a))
    as [Hl Hx].
  - rewrite length_firstn. lia.
  - rewrite length_skipn. pose proof (Nat.Div0.mul_div_le (length a) 8). lia.
  - now apply Exists_firstn_skipn.
  - destruct (unrolled A (length a / 8 - 1) (firstn 8 a) (skipn 8 a))
      as [r rest]. simpl in *.
    apply loop_sum_absorbs. destruct Hx as [Hx|Hx]; [left|now right].
    now apply combine_lanes_absorbs.
Qed.

Lemma pairwise_sum_absorbs fuel : forall a,
  Exists P a -> P (pairwise_sum A fuel a).
Proof.
  induction fuel as [|fuel IH]; intros a HP; simpl;
    destruct (Nat.ltb_spec (length a) 8) as [?|H8];
    try (apply loop_sum_absorbs; now right);
    destruct (Nat.leb_spec (length a) 128) as [?|?];
    try (apply block_sum_absorbs; [lia|exact HP]).
  destruct (Exists_firstn_skipn
              (length a / 2 - (length a / 2) mod 8) a HP) as [Hh|Hh];
    [apply add_l|apply add_r]; now apply IH.
Qed.

Lemma sum_absorbs a : Exists P a -> P (Reduce.sum A a).
Proof. intros H. apply add_r, pairwise_sum_absorbs, H. Qed.
End Absorbing.

(** *** In exact arithmetic the reductions are the plain sum, mean and
    variance *)

Section ExactSum.
Import Reduce.

Lemma total_app xs ys : Exact.total (xs ++ ys) = (Exact.total xs + Exact.total ys)%Qc.
Proof.
  induction xs as [|x xs IH]; simpl; [ring|]. rewrite IH. ring.
Qed.

Lemma loop_sum_total a : forall res, loop_sum Exact.rational res a = (res + Exact.total a)%Qc.
Proof.
  unfold loop_sum.
  induction a as [|x a IH]; intros res; cbn [fold_left Exact.total];
    [ring|].
  rewrite IH. simpl. ring.
Qed.

Lemma add_lanes_total r : forall b,
  length r = length b ->
  Exact.total (add_lanes Exact.rational r b)
  = (Exact.total r + Exact.total b)%Qc.
Proof.
  induction r as [|x r IH]; intros [|y b] H; simpl in *; try discriminate;
    [ring|]. rewrite IH by lia. ring.
Qed.

Lemma unrolled_total k : forall r a,
  length r = 8 -> 8 * k <= length a ->
  length (fst (unrolled Exact.rational k r a)) = 8 /\
  (Exact.total (fst (unrolled Exact.rational k r a))
   + Exact.total (snd (unrolled Exact.rational k r a)))%Qc
  = (Exact.total r + Exact.total a)%Qc.
Proof.
  induction k as [|k IH]; intros r a Hr Ha; cbn [unrolled fst snd];
    [split; [exact Hr|reflexivity]|].
  assert (H8 : length (firstn 8 a) = 8) by (apply firstn_8_length; lia).
  destruct (IH (add_lanes Exact.rational r (firstn 8 a)) (skipn 8 a)) as [Hl Ht].
  - rewrite add_lanes_length; [exact Hr|congruence].
  - rewrite length_skipn. lia.
  - split; [exact Hl|]. rewrite Ht, add_lanes_total by congruence.
    rewrite <- (firstn_skipn 8 a) at 3. rewrite total_app. ring.
Qed.

Lemma combine_lanes_total r : length r = 8 -> combine_lanes Exact.rational r = Exact.total r.
Proof.
  intros H. do 9 (destruct r as [|? r]; try discriminate H). simpl. ring.
Qed.

Lemma block_sum_total a : 8 <= length a -> block_sum Exact.rational a = Exact.total a.
Proof.
  intros H. unfold block_sum.
  destruct (unrolled_total (length a / 8 - 1) (firstn 8 a) (skipn 8 a))
    as [Hl Ht].
  - apply firstn_8_length, H.
  - rewrite length_skipn.
    pose proof (Nat.Div0.mul_div_le (length a) 8). lia.
  - destruct (unrolled Exact.rational (length a / 8 - 1) (firstn 8 a) (skipn 8 a))
      as [r rest]. simpl in *.
    rewrite loop_sum_total, combine_lanes_total, Ht by exact Hl.
    rewrite <- (firstn_skipn 8 a) at 3. now rewrite total_app.
Qed.

Lemma pairwise_sum_total fuel : forall a, pairwise_sum Exact.rational fuel a = Exact.total a.
Proof.
  induction fuel as [|fuel IH]; intros a; simpl;
    destruct (Nat.ltb_spec (length a) 8) as [?|H8];
    try (rewrite loop_sum_total; simpl; ring);
    destruct (Nat.leb_spec (length a) 128) as [?|?];
    try (apply block_sum_total; lia).
  rewrite !IH, <- total_app, firstn_skipn. reflexivity.
Qed.

Lemma sum_total a : Reduce.sum Exact.rational a = Exact.total a.
Proof. unfold Reduce.sum. rewrite pairwise_sum_total. simpl. ring. Qed.



Lemma var_ddof1_exact a : Reduce.var Exact.rational 1 a = Exact.sample_variance a.
Proof.
  unfold Reduce.var. rewrite !sum_total, map_map, Nat.max_0_r. reflexivity.
Qed.
End ExactSum.

(** ** The bounded deque *)

Section Deque.
Implicit Types (d : deque) (x : float) (vs l : list float).

Lemma lastn_length n l : length (lastn n l) = Nat.min n (length l).
Proof. unfold lastn. rewrite length_skipn. lia. Qed.

Lemma lastn_all n l : length l <= n -> lastn n l = l.
Proof.
  intros H. unfold lastn. replace (length l - n) with 0 by lia. reflexivity.
Qed.

Lemma lastn_app_absorb n l vs : lastn n (lastn n l ++ vs) = lastn n (l ++ vs).
Proof.
  unfold lastn at 1 3. rewrite !length_app, lastn_length.
  unfold lastn.
  set (j := length l - n).
  replace (length l + length vs - n)
    with ((Nat.min n (length l) + length vs - n) + j) by lia.
  rewrite <- skipn_skipn. f_equal.
  rewrite skipn_app. replace (j - length l) with 0 by lia.
  reflexivity.
Qed.

Lemma lastn_app_right n l vs : n <= length vs -> lastn n (l ++ vs) = lastn n vs.
Proof.
  intros H. unfold lastn. rewrite length_app, skipn_app.
  rewrite (skipn_all2 l) by lia. simpl. f_equal. lia.
Qed.

Lemma append_maxlen d x : maxlen (append d x) = maxlen d.
Proof. reflexivity. Qed.

Lemma append_items d x :
  bounded d -> items (append d x) = lastn (maxlen d) (items d ++ [x]).
Proof.
  unfold bounded, len, append, lastn. intros H. simpl.
  rewrite length_app. simpl.
  destruct (Nat.ltb_spec (maxlen d) (length (items d) + 1)) as [Hlt|Hge].
  - replace (length (items d) + 1 - maxlen d) with 1 by lia. reflexivity.
  - replace (length (items d) + 1 - maxlen d) with 0 by lia. reflexivity.
Qed.


Lemma append_bounded d x : bounded d -> bounded (append d x).
Proof.
  intros H. unfold bounded, len. rewrite append_items by assumption.
  rewrite lastn_length, append_maxlen. lia.
Qed.

Lemma extend_maxlen vs : forall d, maxlen (extend d vs) = maxlen d.
Proof.
  unfold extend.
  induction vs as [|v vs IH]; intros d; simpl; [reflexivity|].
  rewrite IH. apply append_maxlen.
Qed.

Lemma extend_bounded vs : forall d, bounded d -> bounded (extend d vs).
Proof.
  unfold extend.
  induction vs as [|v vs IH]; intros d H; simpl; [assumption|].
  apply IH, append_bounded, H.
Qed.

Lemma extend_items vs : forall d,
  bounded d -> items (extend d vs) = lastn (maxlen d) (items d ++ vs).
Proof.
  unfold extend.
  induction vs as [|v vs IH]; intros d H; simpl.
  - rewrite app_nil_r. symmetry. apply lastn_all, H.
  - rewrite IH by (apply append_bounded, H).
    rewrite append_maxlen, append_items by assumption.
    rewrite lastn_app_absorb, <- app_assoc. reflexivity.
Qed.

Lemma deque_new_bounded l n d : deque_new l n = ret d -> bounded d.
Proof.
  unfold deque_new. destruct (n <? 0)%Z; [discriminate|].
  intros [= <-]. apply extend_bounded. unfold bounded, len. simpl. lia.
Qed.

Lemma deque_new_items l n :
  (0 <= n)%Z ->
  deque_new l n = ret (Deque (lastn (Z.to_nat n) l) (Z.to_nat n)).
Proof.
  intros Hn. unfold deque_new.
  destruct (Z.ltb_spec n 0) as [?|_]; [lia|].
  f_equal.
  pose proof (@extend_items l (Deque [] (Z.to_nat n))) as Hi.
  pose proof (extend_maxlen l (Deque [] (Z.to_nat n))) as Hm.
  unfold extend in Hi, Hm. simpl in Hi, Hm.
  destruct (fold_left append l (Deque [] (Z.to_nat n))) as [it ml].
  simpl in *. subst ml. rewrite Hi; [reflexivity|].
  unfold bounded, len. simpl. lia.
Qed.
End Deque.

(** ** [detect_anomaly] *)

Section DetectAnomaly.
Local Open Scope float_scope.
Implicit Types (w : deque) (threshold : float).

Lemma getitem_last_app w l x : items w = l ++ [x] -> getitem_last w = ret x.
Proof.
  intros H. unfold getitem_last. rewrite H, rev_app_distr. reflexivity.
Qed.

Lemma items_snoc w : 1 <= len w -> exists l x, items w = l ++ [x].
Proof.
  unfold len. intros H.
  destruct (items w) as [|a l] using rev_ind; [simpl in H; lia|].
  now exists l, a.
Qed.

Lemma truediv_nonzero x y : (y =? 0) = false -> F.truediv x y = ret (x / y).
Proof. intros H. unfold F.truediv. now rewrite H. Qed.

(** Past the length guard the function is the z-score decision on the
    window's own mean and deviation. *)
Lemma detect_anomaly_long w threshold l latest :
  2 <= len w -> items w = l ++ [latest] ->
  detect_anomaly w threshold =
    ret (Spec.decide latest (np.mean (items w)) (np.std 0 (items w)) threshold).
Proof.
  intros Hlen Hit. unfold detect_anomaly, Spec.decide, Spec.z_score.
  destruct (Nat.ltb_spec (len w) 2) as [?|_]; [lia|].
  destruct (np.std 0 (items w) =? 0) eqn:Hstd; [reflexivity|].
  rewrite (getitem_last_app w l latest Hit). simpl.
  rewrite truediv_nonzero by assumption. reflexivity.
Qed.

(** The function is total: no input makes it raise. *)
Lemma detect_anomaly_returns w threshold : returns (detect_anomaly w threshold).
Proof.
  destruct (Nat.lt_ge_cases (len w) 2) as [Hlt|Hge].
  - exists (false, F.zero). unfold detect_anomaly.
    now destruct (Nat.ltb_spec (len w) 2) as [_|?]; [|lia].
  - destruct (items_snoc w) as (l & x & Hit); [lia|].
    eexists. apply (detect_anomaly_long w threshold l x Hge Hit).
Qed.
End DetectAnomaly.

(** ** Classification *)

Section Classification.
Local Open Scope float_scope.

(** Claim C1. For a window of at least two values whose population
    standard deviation is not zero, and any threshold, the z-score is
    (latest value - mean) / std and the sample is an anomaly exactly
    when |z-score| > threshold, strictly: a z-score whose magnitude
    equals the threshold -- in particular a z-score equal to a
    non-negative threshold -- is not an anomaly. *)
Theorem detect_anomaly_zscore (w : deque) (threshold : float)
    (l : list float) (latest : float) :
  2 <= len w ->
  items w = l ++ [latest] ->
  (np.std 0 (items w) =? 0) = false ->
  let z_score := (latest - np.mean (items w)) / np.std 0 (items w) in
  let is_anomaly := threshold <? PrimFloat.abs z_score in
  detect_anomaly w threshold = ret (is_anomaly, z_score) /\
  ((PrimFloat.abs z_score =? threshold) = true -> is_anomaly = false) /\
  ((z_score =? threshold) = true -> (0 <=? threshold) = true ->
   is_anomaly = false).
Proof.
  intros Hlen Hit Hstd z_score is_anomaly. split; [|split].
  - rewrite (detect_anomaly_long w threshold l latest Hlen Hit).
    unfold Spec.decide, Spec.z_score. rewrite Hstd. reflexivity.
  - apply float_eqb_not_ltb.
  - intros Hz Ht. apply float_eqb_not_ltb, float_eqb_nonneg_abs; assumption.
Qed.

Lemma detect_anomaly_zscore_witness :
  detect_anomaly (Deque [0; 1] 2) 3 = ret (false, 1).
Proof.
  exact (proj1 (detect_anomaly_zscore (Deque [0; 1] 2) 3 [0] 1
                  (le_n 2) eq_refl eq_refl)).
Defined.

(** The comparison is strict on a concrete window: [0, 1] has mean 0.5,
    deviation 0.5 and z-score 1.0 for its latest value, which threshold
    1.0 does not flag and threshold 0.5 does. *)
Example threshold_boundary :
  detect_anomaly (Deque [0; 1] 2) 1 = ret (false, 1) /\
  detect_anomaly (Deque [0; 1] 2) 0.5 = ret (true, 1).
Proof. split; reflexivity. Qed.



(** On [1, 1, 100] nothing is rounded before the square root: binary64
    and exact arithmetic both give the mean 34 and the variance 2178 for
    the divisor N, where the divisor N - 1 gives 3267. *)
Lemma population_not_sample_std :
  np.mean [1; 1; 100] = 34 /\
  np.var 0 [1; 1; 100] = 2178 /\
  np.var 1 [1; 1; 100] = 3267 /\
  Exact.arithmetic_mean (map Exact.count [1; 1; 100]%nat) = Exact.count 34 /\
  Exact.population_variance (map Exact.count [1; 1; 100]%nat) = Exact.count 2178 /\
  Exact.sample_variance (map Exact.count [1; 1; 100]%nat) = Exact.count 3267.
Proof.
  repeat split; try reflexivity; apply Qc_is_canon; vm_compute; reflexivity.
Qed.

(** Claim C3. For a window of at least two values whose standard
    deviation is 0.0, and any threshold, the result is (False, 0.0); the
    division by the deviation is never run on a zero divisor, that is,
    no window and no threshold make the function raise
    ZeroDivisionError. *)
Theorem detect_anomaly_zero_std (w : deque) (threshold : float) :
  2 <= len w ->
  (np.std 0 (items w) =? 0) = true ->
  detect_anomaly w threshold = ret (false, F.zero) /\
  (forall w' threshold',
      detect_anomaly w' threshold' <> raise ZeroDivisionError).
Proof.
  intros Hlen Hstd. split.
  - unfold detect_anomaly.
    destruct (Nat.ltb_spec (len w) 2) as [?|_]; [lia|].
    now rewrite Hstd.
  - intros w' t'. destruct (detect_anomaly_returns w' t') as [r ->].
    discriminate.
Qed.

Lemma detect_anomaly_zero_std_witness :
  detect_anomaly (Deque [1; 1; 1] 3) 3 = ret (false, F.zero).
Proof.
  exact (proj1 (detect_anomaly_zero_std (Deque [1; 1; 1] 3) 3
                  (le_S 2 2 (le_n 2)) eq_refl)).
Defined.

(** The guard is on the computed deviation, not on the values being
    identical: three copies of 1.0 have deviation 0.0, but three copies
    of 0.1 have the mean 0.10000000000000002 in binary64, hence a
    deviation of about 1.4e-17 and the z-score -1.0. *)
Example constant_window_rounding :
  (np.std 0 [1; 1; 1] =? 0) = true /\
  (np.std 0 [0.1; 0.1; 0.1] =? 0) = false /\
  detect_anomaly (Deque [0.1; 0.1; 0.1] 3) 3 = ret (false, -1).
Proof. repeat split; vm_compute; reflexivity. Qed.

(** Claim C4. For a window of fewer than two values, and any
    threshold, the result is the normal value (False, 0.0), not an
    exception. *)
Theorem detect_anomaly_short_window (w : deque) (threshold : float) :
  len w < 2 ->
  detect_anomaly w threshold = ret (false, F.zero).
Proof.
  intros Hlen. unfold detect_anomaly.
  now destruct (Nat.ltb_spec (len w) 2) as [_|?]; [|lia].
Qed.

Lemma detect_anomaly_short_window_witness :
  detect_anomaly (Deque [20] 100) 3 = ret (false, F.zero).
Proof.
  exact (detect_anomaly_short_window (Deque [20] 100) 3 (le_n 2)).
Defined.
End Classification.

(** ** Construction and the first tick *)

Section Construction.
Local Open Scope float_scope.

Lemma init_nonneg (n : Z) :
  (0 <= n)%Z ->
  init n = ret (State (Deque (repeat F.zero (Z.to_nat n)) (Z.to_nat n))
                      (Deque (repeat F.nan (Z.to_nat n)) (Z.to_nat n))).
Proof.
  intros Hn. unfold init, list_mul.
  rewrite !deque_new_items by assumption. simpl.
  rewrite !lastn_all by (rewrite repeat_length; lia). reflexivity.
Qed.

Lemma init_negative (n : Z) : (n < 0)%Z -> init n = raise ValueError.
Proof.
  intros Hn. unfold init, deque_new.
  now destruct (Z.ltb_spec n 0) as [_|?]; [|lia].
Qed.

Lemma append_prefilled (N : nat) (x : float) :
  append (Deque (repeat F.zero (S N)) (S N)) x
  = Deque (repeat F.zero N ++ [x]) (S N).
Proof.
  unfold append. simpl. rewrite length_app, repeat_length. simpl.
  destruct (Nat.ltb_spec (S N) (S (N + 1))) as [_|?]; [reflexivity|lia].
Qed.

(** Claim C5, as the program has it. For every window_size >= 2 the
    first sample is classified against the pre-filled window, that is
    window_size - 1 zeros followed by the sample: a window of
    window_size >= 2 values. The result is (False, 0.0) when the
    deviation of that window is 0.0, and otherwise the z-score of the
    sample in that window with its comparison against 3.0. *)
Theorem first_update_prefilled (n : Z) (sample : float) :
  (2 <= n)%Z ->
  let w := Deque (repeat F.zero (Z.to_nat n - 1) ++ [sample]) (Z.to_nat n) in
  let mean := np.mean (items w) in
  let std := np.std 0 (items w) in
  2 <= len w /\
  (st <- init n ;; sr <- update st sample ;; ret (window (fst sr))) = ret w /\
  first_classification n sample =
    ret (if std =? 0 then (false, F.zero)
         else (3 <? PrimFloat.abs ((sample - mean) / std),
               (sample - mean) / std)).
Proof.
  intros Hn w mean std.
  assert (Hlen : 2 <= len w).
  { unfold len, w. simpl. rewrite length_app, repeat_length. simpl. lia. }
  assert (Hupd : forall st, init n = ret st -> append (window st) sample = w).
  { intros st. rewrite init_nonneg by lia. intros [= <-]. simpl. unfold w.
    destruct (Z.to_nat n) as [|N] eqn:HN; [lia|].
    rewrite append_prefilled. simpl. rewrite ?Nat.sub_0_r. reflexivity. }
  pose proof (detect_anomaly_long w default_threshold _ sample Hlen eq_refl)
    as Hdet.
  unfold first_classification.
  rewrite init_nonneg in * by lia.
  specialize (Hupd _ eq_refl). simpl in Hupd.
  unfold update. simpl. rewrite Hupd, Hdet. simpl.
  repeat split; assumption.
Qed.

Lemma first_update_prefilled_witness :
  first_classification 2 1 = ret (false, 1).
Proof.
  exact (proj2 (proj2 (first_update_prefilled 2 1 (Z.le_refl 2)))).
Defined.

(** On a fresh window of size 2 the first sample 1.0 gets the z-score
    1.0, not 0.0; on the program's own size 100 a first sample of 20.0
    is reported as an anomaly. *)
Lemma first_classification_counterexample :
  ~ (forall (n : Z) (sample : float), (2 <= n)%Z ->
       first_classification n sample = ret (false, F.zero)).
Proof.
  intros H. specialize (H 2%Z 1 (Z.le_refl 2)).
  apply (f_equal (fun r => match r with
                           | inr (_, z) => z =? 0
                           | inl _ => true
                           end)) in H.
  vm_compute in H. discriminate.
Qed.

Lemma first_classification_spike :
  exists z, first_classification main.window_size 20 = ret (true, z).
Proof. eexists. vm_compute. reflexivity. Qed.

(** Claim C6, as the program has it. Nothing validates the parameters:
    building the deques succeeds for every window_size >= 0, sizes 0
    and 1 included, and fails only for a negative size, with the
    ValueError of [deque]; no threshold is rejected, [detect_anomaly]
    returning a result for every window and every threshold. *)
Theorem construction_unvalidated (n : Z) (w : deque) (threshold : float) :
  init n =
    (if (n <? 0)%Z then raise ValueError
     else ret (State (Deque (repeat F.zero (Z.to_nat n)) (Z.to_nat n))
                     (Deque (repeat F.nan (Z.to_nat n)) (Z.to_nat n)))) /\
  returns (detect_anomaly w threshold).
Proof.
  split; [|apply detect_anomaly_returns].
  destruct (Z.ltb_spec n 0) as [Hneg|Hpos].
  - apply init_negative, Hneg.
  - apply init_nonneg, Hpos.
Qed.

(** A window of size 1 is built, and so is one of size 0; thresholds 0.0
    and -1.0 are used as they are. *)
Lemma construction_counterexample :
  returns (init 1) /\ returns (init 0) /\
  detect_anomaly (Deque [0; 1] 2) 0 = ret (true, 1) /\
  detect_anomaly (Deque [0; 1] 2) (-1) = ret (true, 1).
Proof.
  repeat split; try (eexists; vm_compute; reflexivity).
Qed.
End Construction.

(** ** The sliding window under a sequence of pushes *)

Section SlidingWindow.
Implicit Types (d w : deque) (vs stream : list float) (N : nat).

Lemma extend_newest d vs :
  bounded d -> maxlen d <= length vs ->
  items (extend d vs) = skipn (length vs - maxlen d) vs.
Proof.
  intros Hb Hk. rewrite extend_items by assumption.
  apply lastn_app_right, Hk.
Qed.

Lemma extend_len d vs :
  bounded d -> len (extend d vs) = Nat.min (maxlen d) (len d + length vs).
Proof.
  intros Hb. unfold len. rewrite extend_items by assumption.
  rewrite lastn_length, length_app. reflexivity.
Qed.

Lemma append_full d x :
  len d = maxlen d -> 1 <= maxlen d ->
  items (append d x) = tl (items d) ++ [x].
Proof.
  unfold len, append. intros Hfull Hpos. simpl.
  rewrite length_app. simpl.
  destruct (Nat.ltb_spec (maxlen d) (length (items d) + 1)) as [_|?]; [|lia].
  destruct (items d); [simpl in Hfull; lia|reflexivity].
Qed.

(** Claim C7. With a capacity N >= 2, after k > N pushes v1..vk the
    window holds exactly the last N of them, oldest first: position i
    holds v(k-N+1+i); and a push into a full window drops the single
    oldest item and puts the new one last. *)
Theorem extend_keeps_newest N d vs :
  2 <= N -> maxlen d = N -> bounded d -> N < length vs ->
  items (extend d vs) = skipn (length vs - N) vs /\
  (forall i, i < N ->
     nth_error (items (extend d vs)) i = nth_error vs (length vs - N + i)) /\
  (forall x, items (append (extend d vs) x)
             = tl (items (extend d vs)) ++ [x]).
Proof.
  intros HN Hmax Hb Hk.
  assert (Hit : items (extend d vs) = skipn (length vs - N) vs).
  { subst N. apply extend_newest; [assumption|lia]. }
  split; [exact Hit|split].
  - intros i _. rewrite Hit. apply nth_error_skipn.
  - intros x. apply append_full.
    + rewrite extend_len, extend_maxlen by assumption. lia.
    + rewrite extend_maxlen. lia.
Qed.

Lemma extend_keeps_newest_witness :
  items (extend (Deque [] 2) [1; 2; 3]%float) = [2; 3]%float.
Proof.
  exact (proj1 (extend_keeps_newest 2 (Deque [] 2) [1; 2; 3]%float
                  (le_n 2) eq_refl (le_S 0 1 (le_S 0 0 (le_n 0)))
                  (le_n 3))).
Defined.

(** Claim C8. With a capacity N >= 2, whatever is pushed, the length of
    the window never exceeds N, and once N or more values have been
    pushed it is exactly N. *)
Theorem extend_length N d vs :
  2 <= N -> maxlen d = N -> bounded d ->
  len (extend d vs) <= N /\
  (N <= length vs -> len (extend d vs) = N).
Proof.
  intros _ Hmax Hb. rewrite extend_len by assumption. lia.
Qed.

Lemma extend_length_witness :
  len (extend (Deque [] 2) [1; 2; 3]%float) <= 2 /\
  (2 <= 3 -> len (extend (Deque [] 2) [1; 2; 3]%float) = 2).
Proof.
  exact (extend_length 2 (Deque [] 2) [1; 2; 3]%float
           (le_n 2) eq_refl (le_S 0 1 (le_S 0 0 (le_n 0)))).
Defined.
End SlidingWindow.

(** ** The assembled program *)

Section Program.
Local Open Scope float_scope.
Implicit Types (st : state) (w : deque) (stream : list float).

Lemma append_stays_full w x :
  len w = maxlen w -> len (append w x) = maxlen w.
Proof.
  intros Hfull. unfold len in *. rewrite append_items.
  - rewrite lastn_length, length_app. simpl. lia.
  - unfold bounded, len. lia.
Qed.

Lemma ticks_full stream : forall w,
  len w = maxlen w ->
  Forall (fun w' => len w' = maxlen w) (ticks w stream).
Proof.
  induction stream as [|data rest IH]; intros w Hfull; simpl.
  - constructor.
  - constructor; [apply append_stays_full, Hfull|].
    rewrite <- (append_maxlen w data). apply IH.
    rewrite append_maxlen. apply append_stays_full, Hfull.
Qed.

(** The loop never raises; it leaves the pushed samples in the window
    and returns the classification of each successive window. *)
Lemma run_ticks stream : forall st,
  exists a rs,
    run st stream = ret (State (extend (window st) stream) a, rs) /\
    Forall2 (fun w r => detect_anomaly w default_threshold = ret r)
            (ticks (window st) stream) rs.
Proof.
  induction stream as [|data rest IH]; intros st; simpl.
  - exists (anomalies st), []. destruct st. split; [reflexivity|constructor].
  - destruct (detect_anomaly_returns (append (window st) data)
                default_threshold) as [r Hr].
    unfold update. rewrite Hr. simpl.
    destruct (IH (State (append (window st) data)
                    (append (anomalies st)
                       (if fst r then data else F.nan))))
      as (a & rs & Hrun & Hall).
    rewrite Hrun. simpl in *.
    exists a, (r :: rs). split; [reflexivity|].
    constructor; assumption.
Qed.

Lemma skipn_repeat (x : float) k n : skipn k (repeat x n) = repeat x (n - k).
Proof.
  revert k. induction n as [|n IH]; intros [|k]; simpl; try reflexivity.
  apply IH.
Qed.

(** Claim C9. Window size 3, threshold 3.0. After 1.0, 1.0, 1.0 the
    third classification is (False, 0.0); the next sample 100.0 makes
    the window [1.0, 1.0, 100.0], of mean 34.0 and deviation 46.67 to
    two decimals, and is classified (False, z) with z = 1.41 to two
    decimals, below the threshold. The windows are the same whether the
    three-slot window started empty or holding zeros. *)
Theorem scenario_window_3 :
  exists st3 r1 r2 st4 z,
    default_threshold = 3 /\
    (st0 <- init 3 ;; run st0 [1; 1; 1]) = ret (st3, [r1; r2; (false, 0)]) /\
    items (window st3) = [1; 1; 1] /\
    update st3 100 = ret (st4, (false, z)) /\
    items (window st4) = [1; 1; 100] /\
    np.mean (items (window st4)) = 34 /\
    (PrimFloat.abs (np.std 0 (items (window st4)) - 46.67) <? 0.005) = true /\
    (PrimFloat.abs (z - 1.41) <? 0.005) = true /\
    (PrimFloat.abs z <? default_threshold) = true /\
    window st3 = extend (Deque [] 3) [1; 1; 1] /\
    window st4 = extend (Deque [] 3) [1; 1; 1; 100].
Proof.
  do 5 eexists.
  split; [reflexivity|].
  split; [vm_compute; reflexivity|].
  split; [reflexivity|].
  split; [vm_compute; reflexivity|].
  repeat split; vm_compute; reflexivity.
Qed.

(** Claim C10. The window is built holding window_size zeros, so its
    length is its capacity before the first sample and in every window
    handed to [detect_anomaly]; with window_size >= 2 the length guard
    of [detect_anomaly] is false at every tick; and while no more than
    window_size samples have arrived the window is zeros followed by
    the samples. *)
Theorem prefilled_window_always_full (n : Z) (stream : list float) :
  (2 <= n)%Z ->
  exists st0 st rs,
    init n = ret st0 /\
    items (window st0) = repeat F.zero (Z.to_nat n) /\
    maxlen (window st0) = Z.to_nat n /\
    len (window st0) = maxlen (window st0) /\
    run st0 stream = ret (st, rs) /\
    window st = extend (window st0) stream /\
    len (window st) = Z.to_nat n /\
    Forall (fun w => len w = Z.to_nat n /\ (len w <? 2)%nat = false)
           (ticks (window st0) stream) /\
    Forall2 (fun w r => detect_anomaly w default_threshold = ret r)
            (ticks (window st0) stream) rs /\
    (length stream <= Z.to_nat n ->
     items (window st)
     = repeat F.zero (Z.to_nat n - length stream) ++ stream).
Proof.
  intros Hn.
  set (N := Z.to_nat n).
  set (w0 := Deque (repeat F.zero N) N).
  set (st0 := State w0 (Deque (repeat F.nan N) N)).
  assert (Hfull : len w0 = maxlen w0).
  { unfold len, w0. simpl. apply repeat_length. }
  assert (Hb : bounded w0) by (unfold bounded; lia).
  destruct (run_ticks stream st0) as (a & rs & Hrun & Hres).
  exists st0, (State (extend w0 stream) a), rs.
  split; [apply init_nonneg; lia|].
  split; [reflexivity|]. split; [reflexivity|]. split; [exact Hfull|].
  split; [exact Hrun|]. split; [reflexivity|].
  split.
  { simpl. rewrite extend_len by assumption. rewrite Hfull. simpl. lia. }
  split.
  { pose proof (ticks_full stream w0 Hfull) as Hall.
    simpl. eapply Forall_impl; [|exact Hall].
    intros w Hw. simpl in Hw. split; [exact Hw|].
    apply Nat.ltb_ge. rewrite Hw. unfold N. lia. }
  split; [exact Hres|].
  intros Hk. simpl. rewrite extend_items by assumption. simpl.
  unfold lastn. rewrite length_app, repeat_length, skipn_app.
  rewrite skipn_repeat, repeat_length.
  replace (N + length stream - N - N)%nat with 0%nat by lia.
  replace (N - (N + length stream - N))%nat with (N - length stream)%nat
    by lia.
  reflexivity.
Qed.

Lemma prefilled_window_always_full_witness :
  exists st0 st rs,
    main.start = ret st0 /\
    run st0 [20; 1] = ret (st, rs) /\
    len (window st) = 100%nat.
Proof.
  destruct (prefilled_window_always_full main.window_size [20; 1]
              ltac:(vm_compute; discriminate))
    as (st0 & st & rs & H0 & _ & _ & _ & Hrun & _ & Hlen & _).
  exists st0, st, rs. repeat split; assumption.
Defined.
End Program.

(** * Further properties of the code *)

(** ** Values that are not finite numbers *)

Section NonFinite.
Import SpecFloat.
Local Open Scope float_scope.

Lemma SFcompare_refl_finite s m e :
  SFcompare (S754_finite s m e) (S754_finite s m e) = Some Eq.
Proof.
  simpl. rewrite Z.compare_refl.
  assert (H : Pos.compare_cont Eq m m = Eq) by apply Pos.compare_cont_refl.
  rewrite H. now destruct s.
Qed.

Lemma is_finite_spec x :
  PrimFloat.is_finite x = negb (SFnonfinite (Prim2SF x)).
Proof.
  unfold PrimFloat.is_finite, PrimFloat.is_nan, PrimFloat.is_infinity.
  rewrite !FloatAxioms.eqb_spec, FloatAxioms.abs_spec.
  change (Prim2SF infinity) with (S754_infinity false).
  destruct (Prim2SF x) as [s|s| |s m e].
  - now destruct s.
  - now destruct s.
  - reflexivity.
  - unfold SFeqb. rewrite SFcompare_refl_finite. reflexivity.
Qed.

Lemma nonfinite_iff x : nonfinite x <-> PrimFloat.is_finite x = false.
Proof.
  unfold nonfinite. rewrite is_finite_spec.
  destruct (SFnonfinite (Prim2SF x)); simpl; intuition congruence.
Qed.

Lemma add_nonfinite_l x y : nonfinite x -> nonfinite (x + y).
Proof.
  unfold nonfinite. rewrite FloatAxioms.add_spec. unfold SF64add.
  destruct (Prim2SF x) as [s|s| |s ? ?]; try discriminate; intros _;
    destruct (Prim2SF y) as [t|t| |t ? ?]; try destruct s; try destruct t;
    reflexivity.
Qed.

Lemma add_nonfinite_r x y : nonfinite y -> nonfinite (x + y).
Proof.
  unfold nonfinite. rewrite FloatAxioms.add_spec. unfold SF64add.
  destruct (Prim2SF y) as [t|t| |t ? ?]; try discriminate; intros _;
    destruct (Prim2SF x) as [s|s| |s ? ?]; try destruct s; try destruct t;
    reflexivity.
Qed.

Lemma sub_nonfinite_r x y : nonfinite y -> nonfinite (x - y).
Proof.
  unfold nonfinite. rewrite FloatAxioms.sub_spec. unfold SF64sub.
  destruct (Prim2SF y) as [t|t| |t ? ?]; try discriminate; intros _;
    destruct (Prim2SF x) as [s|s| |s ? ?]; try destruct s; try destruct t;
    reflexivity.
Qed.

Lemma mul_nonfinite_self x : nonfinite x -> nonfinite (x * x).
Proof.
  unfold nonfinite. rewrite FloatAxioms.mul_spec. unfold SF64mul.
  destruct (Prim2SF x) as [s|s| |s ? ?]; try discriminate; reflexivity.
Qed.

Lemma div_nonfinite_l x y : nonfinite x -> nonfinite (x / y).
Proof.
  unfold nonfinite. rewrite FloatAxioms.div_spec. unfold SF64div.
  destruct (Prim2SF x) as [s|s| |s ? ?]; try discriminate; intros _;
    destruct (Prim2SF y) as [t|t| |t ? ?]; reflexivity.
Qed.

Lemma sqrt_nonfinite x : nonfinite x -> nonfinite (PrimFloat.sqrt x).
Proof.
  unfold nonfinite. rewrite FloatAxioms.sqrt_spec. unfold SF64sqrt.
  destruct (Prim2SF x) as [s|s| |s ? ?]; try discriminate; intros _;
    try destruct s; reflexivity.
Qed.

Lemma Prim2SF_nan_inv x : Prim2SF x = S754_nan -> x = PrimFloat.nan.
Proof.
  intros H. rewrite <- (FloatAxioms.SF2Prim_Prim2SF x), H. reflexivity.
Qed.

Lemma div_nonfinite_nan x y : nonfinite x -> nonfinite y -> x / y = PrimFloat.nan.
Proof.
  unfold nonfinite. intros Hx Hy. apply Prim2SF_nan_inv.
  rewrite FloatAxioms.div_spec. unfold SF64div.
  destruct (Prim2SF x) as [s|s| |s ? ?]; try discriminate;
    destruct (Prim2SF y) as [t|t| |t ? ?]; try discriminate; reflexivity.
Qed.

Lemma nonfinite_not_zero x : nonfinite x -> (x =? 0) = false.
Proof.
  unfold nonfinite. rewrite FloatAxioms.eqb_spec.
  change (Prim2SF 0) with (S754_zero false).
  destruct (Prim2SF x) as [s|s| |s ? ?]; try discriminate; intros _;
    try destruct s; reflexivity.
Qed.

Lemma ltb_abs_nan t : (t <? PrimFloat.abs PrimFloat.nan) = false.
Proof.
  rewrite FloatAxioms.ltb_spec.
  change (Prim2SF (PrimFloat.abs PrimFloat.nan)) with S754_nan.
  unfold SFltb. now destruct (Prim2SF t).
Qed.
End NonFinite.

Section NonFiniteWindow.
Local Open Scope float_scope.

Lemma np_sum_nonfinite l v : In v l -> nonfinite v -> nonfinite (np.sum l).
Proof.
  intros Hin Hv.
  apply (sum_absorbs np.float64 nonfinite add_nonfinite_l add_nonfinite_r).
  apply Exists_exists. now exists v.
Qed.

Lemma np_mean_nonfinite l v : In v l -> nonfinite v -> nonfinite (np.mean l).
Proof.
  intros Hin Hv.
  apply (div_nonfinite_l (np.sum l)), (np_sum_nonfinite l v Hin Hv).
Qed.

Lemma np_std_nonfinite ddof l v :
  In v l -> nonfinite v -> nonfinite (np.std ddof l).
Proof.
  intros Hin Hv. unfold np.std.
  apply sqrt_nonfinite.
  set (m := np.sum l / F.of_count (length l)).
  assert (Hm : nonfinite m)
    by (apply div_nonfinite_l, (np_sum_nonfinite l v Hin Hv)).
  apply (div_nonfinite_l
           (np.sum (map (fun x => x * x) (map (fun x => x - m) l)))).
  apply (np_sum_nonfinite _ ((v - m) * (v - m))).
  - rewrite map_map. apply (in_map (fun x => (x - m) * (x - m))), Hin.
  - apply mul_nonfinite_self, sub_nonfinite_r, Hm.
Qed.

Lemma detect_anomaly_poisoned (w : deque) (threshold v : float) :
  2 <= len w -> In v (items w) -> nonfinite v ->
  detect_anomaly w threshold = ret (false, PrimFloat.nan).
Proof.
  intros Hlen Hin Hv.
  destruct (items_snoc w) as (l & latest & Hit); [lia|].
  rewrite (detect_anomaly_long w threshold l latest Hlen Hit).
  pose proof (np_mean_nonfinite (items w) v Hin Hv) as Hmean.
  pose proof (np_std_nonfinite 0 (items w) v Hin Hv) as Hstd.
  unfold Spec.decide, Spec.z_score.
  rewrite (nonfinite_not_zero _ Hstd).
  rewrite (div_nonfinite_nan _ _ (sub_nonfinite_r latest _ Hmean) Hstd).
  rewrite ltb_abs_nan. reflexivity.
Qed.

(** Property X1. A window of at least two values that holds a NaN or an
    infinity anywhere is classified (False, nan), whatever the threshold
    and whichever sample is the latest: mean and deviation are not
    finite, the deviation is not 0, and the quotient is NaN. *)
Theorem detect_anomaly_nonfinite (w : deque) (threshold v : float) :
  2 <= len w ->
  In v (items w) ->
  PrimFloat.is_finite v = false ->
  detect_anomaly w threshold = ret (false, PrimFloat.nan).
Proof.
  intros Hlen Hin Hv. apply nonfinite_iff in Hv.
  apply (detect_anomaly_poisoned w threshold v Hlen Hin Hv).
Qed.

Lemma detect_anomaly_nonfinite_witness :
  detect_anomaly (Deque [1; infinity; 2] 3) 3 = ret (false, PrimFloat.nan).
Proof.
  exact (detect_anomaly_nonfinite (Deque [1; infinity; 2] 3) 3 infinity
           (le_S 2 2 (le_n 2)) (or_intror (or_introl eq_refl)) eq_refl).
Defined.
End NonFiniteWindow.

(** ** The threshold *)

Section FloatTransitivity.
Import SpecFloat.

Ltac cmp_cases :=
  repeat match goal with
         | H : context [(?x ?= ?y)%Z] |- _ =>
             destruct (Z.compare_spec x y); simpl in H; try discriminate H
         | |- context [(?x ?= ?y)%Z] =>
             destruct (Z.compare_spec x y); simpl
         | H : context [Pos.compare_cont Eq ?x ?y] |- _ =>
             change (Pos.compare_cont Eq x y) with (Pos.compare x y) in H;
             destruct (Pos.compare_spec x y); simpl in H; try discriminate H
         | |- context [Pos.compare_cont Eq ?x ?y] =>
             change (Pos.compare_cont Eq x y) with (Pos.compare x y);
             destruct (Pos.compare_spec x y); simpl
         end.

Lemma SFleb_ltb_trans (a b c : spec_float) :
  SFleb a b = true -> SFltb b c = true -> SFltb a c = true.
Proof.
  unfold SFleb, SFltb.
  destruct a as [sa|sa| |sa ma ea], b as [sb|sb| |sb mb eb],
    c as [sc|sc| |sc mc ec];
    try destruct sa; try destruct sb; try destruct sc; simpl;
    try congruence; intros H1 H2; cmp_cases; subst;
    try reflexivity; try lia; try discriminate.
Qed.
End FloatTransitivity.

Lemma float_leb_ltb_trans (a b c : float) :
  (a <=? b)%float = true -> (b <? c)%float = true -> (a <? c)%float = true.
Proof.
  rewrite FloatAxioms.leb_spec, !FloatAxioms.ltb_spec. apply SFleb_ltb_trans.
Qed.

Section FloatThreshold.
Import SpecFloat.
Local Open Scope float_scope.

Lemma float_ltb_nan_inf (t x : float) :
  PrimFloat.is_nan t = true \/ t = infinity -> (t <? x) = false.
Proof.
  intros [Hnan| ->]; rewrite FloatAxioms.ltb_spec; unfold SFltb.
  - unfold PrimFloat.is_nan in Hnan. rewrite FloatAxioms.eqb_spec in Hnan.
    destruct (Prim2SF t) as [s|s| |s m e]; try reflexivity;
      unfold SFeqb in Hnan.
    + now destruct s.
    + now destruct s.
    + simpl in Hnan. rewrite Z.compare_refl in Hnan.
      change (Pos.compare_cont Eq m m) with (Pos.compare m m) in Hnan.
      rewrite Pos.compare_refl in Hnan. now destruct s.
  - change (Prim2SF infinity) with (S754_infinity false).
    destruct (Prim2SF x) as [s|s| |s m e]; try destruct s; reflexivity.
Qed.

Lemma float_negative_ltb_abs (t z : float) :
  (t <? 0) = true -> (t <? PrimFloat.abs z) = negb (PrimFloat.is_nan z).
Proof.
  unfold PrimFloat.is_nan.
  rewrite !FloatAxioms.ltb_spec, FloatAxioms.eqb_spec, FloatAxioms.abs_spec.
  change (Prim2SF 0) with (S754_zero false).
  rewrite negb_involutive. unfold SFltb, SFeqb.
  destruct (Prim2SF z) as [s|s| |s m e];
    try rewrite (SFcompare_refl_finite s m e);
    destruct (Prim2SF t) as [st|st| |st mt et];
    try destruct s; try destruct st; simpl;
    intros H; try discriminate H; reflexivity.
Qed.
End FloatThreshold.

Section Threshold.
Local Open Scope float_scope.

Lemma detect_anomaly_short w threshold :
  len w < 2 -> detect_anomaly w threshold = ret (false, F.zero).
Proof.
  intros Hlen. unfold detect_anomaly.
  now destruct (Nat.ltb_spec (len w) 2) as [_|?]; [|lia].
Qed.

(** Property X3. The z-score returned does not depend on the threshold:
    any two thresholds, NaN included, get the same one. And lowering the
    threshold never clears an anomaly: what is flagged at [t2] is
    flagged at every [t1 <= t2]. *)
Theorem detect_anomaly_threshold_monotone (w : deque) (t1 t2 : float) :
  exists z b1 b2,
    detect_anomaly w t1 = ret (b1, z) /\
    detect_anomaly w t2 = ret (b2, z) /\
    ((t1 <=? t2) = true -> b2 = true -> b1 = true).
Proof.
  destruct (Nat.lt_ge_cases (len w) 2) as [Hlt|Hge].
  - exists F.zero, false, false. rewrite !detect_anomaly_short by assumption.
    auto.
  - destruct (items_snoc w) as (l & latest & Hit); [lia|].
    rewrite !(detect_anomaly_long w _ l latest Hge Hit).
    unfold Spec.decide.
    destruct (np.std 0 (items w) =? 0).
    + exists 0, false, false. auto.
    + do 3 eexists. split; [reflexivity|split; [reflexivity|]].
      apply float_leb_ltb_trans.
Qed.

Lemma detect_anomaly_threshold_monotone_witness :
  exists z b1 b2,
    detect_anomaly (Deque [0; 1] 2) 0.5 = ret (b1, z) /\
    detect_anomaly (Deque [0; 1] 2) 0.75 = ret (b2, z) /\
    ((0.5 <=? 0.75) = true -> b2 = true -> b1 = true).
Proof.
  exact (detect_anomaly_threshold_monotone (Deque [0; 1] 2) 0.5 0.75).
Defined.

(** Flagged at 0.75, hence at 0.5, with the same z-score 1.0, which a
    NaN threshold returns too. *)
Example threshold_lowered :
  detect_anomaly (Deque [0; 1] 2) 0.75 = ret (true, 1) /\
  detect_anomaly (Deque [0; 1] 2) 0.5 = ret (true, 1) /\
  detect_anomaly (Deque [0; 1] 2) PrimFloat.nan = ret (false, 1).
Proof. repeat split; reflexivity. Qed.

(** Property X4. With a threshold that is NaN or +infinity no window is
    ever flagged. *)
Theorem detect_anomaly_threshold_never (w : deque) (t : float) :
  PrimFloat.is_nan t = true \/ t = infinity ->
  exists z, detect_anomaly w t = ret (false, z).
Proof.
  intros Ht.
  destruct (Nat.lt_ge_cases (len w) 2) as [Hlt|Hge].
  - exists F.zero. now apply detect_anomaly_short.
  - destruct (items_snoc w) as (l & latest & Hit); [lia|].
    rewrite (detect_anomaly_long w _ l latest Hge Hit).
    unfold Spec.decide.
    destruct (np.std 0 (items w) =? 0); [now exists 0|].
    rewrite (float_ltb_nan_inf _ _ Ht). eexists. reflexivity.
Qed.

Lemma detect_anomaly_threshold_never_witness :
  exists z, detect_anomaly (Deque [0; 0; 50] 3) infinity = ret (false, z).
Proof.
  exact (detect_anomaly_threshold_never (Deque [0; 0; 50] 3) infinity
           (or_intror eq_refl)).
Defined.

(** Property X5. With a negative threshold every window of at least two
    values and non-zero deviation is flagged, unless its z-score is NaN. *)
Theorem detect_anomaly_negative_threshold (w : deque) (t : float)
    (l : list float) (latest : float) :
  2 <= len w ->
  items w = l ++ [latest] ->
  (np.std 0 (items w) =? 0) = false ->
  (t <? 0) = true ->
  let z_score := (latest - np.mean (items w)) / np.std 0 (items w) in
  detect_anomaly w t = ret (negb (PrimFloat.is_nan z_score), z_score).
Proof.
  intros Hlen Hit Hstd Ht z_score.
  rewrite (detect_anomaly_long w _ l latest Hlen Hit).
  unfold Spec.decide, Spec.z_score. rewrite Hstd.
  fold z_score. now rewrite (float_negative_ltb_abs t z_score Ht).
Qed.

Lemma detect_anomaly_negative_threshold_witness :
  detect_anomaly (Deque [0; 1] 2) (-1) = ret (true, 1).
Proof.
  exact (detect_anomaly_negative_threshold (Deque [0; 1] 2) (-1)
           [0] 1 (le_n 2) eq_refl eq_refl eq_refl).
Defined.
End Threshold.

(** ** The loop and its two deques *)

Section Loop.
Local Open Scope float_scope.
Implicit Types (st : state) (w d : deque) (stream vs : list float).

Lemma ticks_app vs : forall w ws,
  ticks w (vs ++ ws) = ticks w vs ++ ticks (extend w vs) ws.
Proof.
  induction vs as [|v vs IH]; intros w ws; simpl; [reflexivity|].
  f_equal. apply IH.
Qed.

Lemma ticks_length vs : forall w, length (ticks w vs) = length vs.
Proof.
  induction vs as [|v vs IH]; intros w; simpl; [reflexivity|].
  now rewrite IH.
Qed.

Lemma ticks_Forall (P : deque -> Prop) vs : forall w,
  (forall pre post, vs = pre ++ post -> pre <> [] -> P (extend w pre)) ->
  Forall P (ticks w vs).
Proof.
  induction vs as [|v vs IH]; intros w H; simpl; constructor.
  - apply (H [v] vs); [reflexivity|discriminate].
  - apply IH. intros pre post -> Hne.
    apply (H (v :: pre) post); [reflexivity|discriminate].
Qed.

Lemma run_markers stream : forall st,
  exists rs,
    run st stream
    = ret (State (extend (window st) stream)
                 (extend (anomalies st) (markers stream rs)), rs) /\
    Forall2 (fun w r => detect_anomaly w default_threshold = ret r)
            (ticks (window st) stream) rs.
Proof.
  induction stream as [|data rest IH]; intros st; simpl.
  - exists []. destruct st. split; [reflexivity|constructor].
  - destruct (detect_anomaly_returns (append (window st) data)
                default_threshold) as [r Hr].
    unfold update. rewrite Hr. simpl.
    destruct (IH (State (append (window st) data)
                    (append (anomalies st)
                       (if fst r then data else F.nan))))
      as (rs & Hrun & Hall).
    rewrite Hrun. simpl in *.
    exists (r :: rs). split; [reflexivity|].
    constructor; assumption.
Qed.

Lemma skipn_app_exact {A} (a b : list A) n :
  length a = n -> skipn n (a ++ b) = b.
Proof.
  intros <-. rewrite skipn_app, skipn_all, Nat.sub_diag. reflexivity.
Qed.

Lemma detect_functional ws : forall rs rs',
  Forall2 (fun w r => detect_anomaly w default_threshold = ret r) ws rs ->
  Forall2 (fun w r => detect_anomaly w default_threshold = ret r) ws rs' ->
  rs = rs'.
Proof.
  induction ws as [|w ws IH]; intros rs rs' H H'; inversion H; inversion H';
    subst; [reflexivity|].
  f_equal; [unfold ret in *; congruence|]. now apply IH.
Qed.

Lemma extend_forgets d d' vs :
  bounded d -> bounded d' -> maxlen d = maxlen d' ->
  maxlen d <= length vs -> extend d vs = extend d' vs.
Proof.
  intros Hb Hb' Hm Hk.
  pose proof (extend_newest d vs Hb Hk) as H.
  pose proof (extend_newest d' vs Hb') as H'.
  rewrite <- Hm in H'. specialize (H' Hk).
  pose proof (extend_maxlen vs d) as M. pose proof (extend_maxlen vs d') as M'.
  destruct (extend d vs), (extend d' vs). simpl in *. congruence.
Qed.

(** Property X6. After as many samples as the window holds, nothing is
    left of the window's initial content: two runs that differ only in
    their initial state (same bound) end with the same window and agree
    on every classification after those samples. *)
Theorem classification_forgets_initial_window st st' pre post :
  bounded (window st) -> bounded (window st') ->
  maxlen (window st) = maxlen (window st') ->
  maxlen (window st) <= length pre ->
  exists s rs s' rs',
    run st (pre ++ post) = ret (s, rs) /\
    run st' (pre ++ post) = ret (s', rs') /\
    window s = window s' /\
    skipn (length pre) rs = skipn (length pre) rs'.
Proof.
  intros Hb Hb' Hm Hk.
  destruct (run_markers (pre ++ post) st) as (rs & Hrun & Hall).
  destruct (run_markers (pre ++ post) st') as (rs' & Hrun' & Hall').
  do 4 eexists. split; [exact Hrun|]. split; [exact Hrun'|]. simpl.
  pose proof (extend_forgets _ _ pre Hb Hb' Hm Hk) as Hpre.
  split.
  - unfold extend in *. rewrite !fold_left_app. now rewrite Hpre.
  - rewrite ticks_app in Hall, Hall'.
    apply Forall2_app_inv_l in Hall as (ra & rb & Ha & Hb1 & ->).
    apply Forall2_app_inv_l in Hall' as (ra' & rb' & Ha' & Hb1' & ->).
    apply Forall2_length in Ha, Ha'. rewrite ticks_length in Ha, Ha'.
    rewrite (skipn_app_exact ra rb), (skipn_app_exact ra' rb') by congruence.
    rewrite Hpre in Hb1. apply (detect_functional _ _ _ Hb1 Hb1').
Qed.

Lemma classification_forgets_initial_window_witness :
  exists s rs s' rs',
    run (State (Deque [0; 0] 2) (Deque [F.nan; F.nan] 2)) ([1; 2] ++ [4])
    = ret (s, rs) /\
    run (State (Deque [7] 2) (Deque [] 2)) ([1; 2] ++ [4]) = ret (s', rs') /\
    window s = window s' /\
    skipn 2 rs = skipn 2 rs'.
Proof.
  exact (classification_forgets_initial_window
           (State (Deque [0; 0] 2) (Deque [F.nan; F.nan] 2))
           (State (Deque [7] 2) (Deque [] 2)) [1; 2] [4]
           (le_n 2) (le_S 1 1 (le_n 1)) eq_refl (le_n 2)).
Defined.

Lemma lastn_keeps_suffix N (a b : list float) :
  length b <= N -> exists c, lastn N (a ++ b) = c ++ b.
Proof.
  intros H. unfold lastn. rewrite length_app, skipn_app.
  replace (length a + length b - N - length a)%nat with 0%nat by lia.
  eexists. reflexivity.
Qed.

Lemma Forall2_constant {A B} (R : A -> B -> Prop) (P : A -> Prop) (x : B) :
  (forall a b, P a -> R a b -> b = x) ->
  forall l rs, Forall2 R l rs -> Forall P l -> rs = repeat x (length l).
Proof.
  intros H l rs HR. induction HR as [|a b l rs Hab _ IH]; intros HP.
  - reflexivity.
  - inversion HP; subst. simpl. f_equal; [now apply (H a)|now apply IH].
Qed.

Lemma markers_unflagged stream z :
  markers stream (repeat (false, z) (length stream))
  = repeat F.nan (length stream).
Proof.
  unfold markers. induction stream as [|v vs IH]; simpl; [reflexivity|].
  now rewrite IH.
Qed.

(** Property X2. A sample that is not a finite number silences the
    detector for as long as it stays in the window: pushed into a
    non-empty window of bound N >= 2, it and the next N - 1 samples are
    all classified (False, nan) and marked NaN in [anomalies]. *)
Theorem nonfinite_sample_silences st data vs :
  bounded (window st) ->
  1 <= len (window st) ->
  2 <= maxlen (window st) ->
  PrimFloat.is_finite data = false ->
  length vs < maxlen (window st) ->
  run st (data :: vs)
  = ret (State (extend (window st) (data :: vs))
               (extend (anomalies st) (repeat F.nan (S (length vs)))),
         repeat (false, PrimFloat.nan) (S (length vs))).
Proof.
  intros Hb Hlen HN Hdata Hk. apply nonfinite_iff in Hdata.
  destruct (run_markers (data :: vs) st) as (rs & Hrun & Hall).
  assert (Hticks : Forall (fun w' => 2 <= len w' /\ In data (items w'))
                     (ticks (window st) (data :: vs))).
  { apply ticks_Forall. intros [|v pre] post Heq Hne; [congruence|].
    injection Heq as <- Hvs.
    assert (Hpre : length pre <= length vs).
    { rewrite Hvs, length_app. lia. }
    split.
    - rewrite extend_len by assumption. simpl. lia.
    - rewrite extend_items by assumption.
      destruct (lastn_keeps_suffix (maxlen (window st)) (items (window st))
                  (data :: pre)) as [c ->]; [simpl; lia|].
      apply in_or_app. right. now left. }
  assert (Hrs : rs = repeat (false, PrimFloat.nan)
                       (length (ticks (window st) (data :: vs)))).
  { refine (Forall2_constant _
              (fun w' => 2 <= len w' /\ In data (items w')) _ _ _ _
              Hall Hticks).
    intros w' r [H2 Hin] HR.
    rewrite (detect_anomaly_poisoned w' _ data H2 Hin Hdata) in HR.
    now injection HR. }
  rewrite ticks_length in Hrs. subst rs.
  rewrite Hrun. change (S (length vs)) with (length (data :: vs)).
  now rewrite markers_unflagged.
Qed.

Lemma nonfinite_sample_silences_witness :
  run (State (Deque [1; 2; 3] 3) (Deque [F.nan; F.nan; F.nan] 3))
      [infinity; 50; 60]
  = ret (State (Deque [infinity; 50; 60] 3) (Deque [F.nan; F.nan; F.nan] 3),
         [(false, PrimFloat.nan); (false, PrimFloat.nan);
          (false, PrimFloat.nan)]).
Proof.
  exact (nonfinite_sample_silences
           (State (Deque [1; 2; 3] 3) (Deque [F.nan; F.nan; F.nan] 3))
           infinity [50; 60]
           (le_n 3) (le_S 1 2 (le_S 1 1 (le_n 1))) (le_S 2 2 (le_n 2))
           eq_refl (le_n 3)).
Defined.

Lemma append_last_in d x :
  items (append d x) <> [] -> In x (items (append d x)).
Proof.
  unfold append. simpl.
  destruct (maxlen d <? length (items d ++ [x]))%nat.
  - destruct (items d) as [|a l]; simpl; [congruence|].
    intros _. apply in_or_app. right. now left.
  - intros _. apply in_or_app. right. now left.
Qed.

Lemma Forall2_tl {A B} (R : A -> B -> Prop) l l' :
  Forall2 R l l' -> Forall2 R (tl l) (tl l').
Proof. intros [|a b l1 l2 _ H]; [constructor|exact H]. Qed.

Lemma append_marked w a x m :
  maxlen a = maxlen w ->
  Forall2 marked (items w) (items a) -> marked x m ->
  Forall2 marked (items (append w x)) (items (append a m)).
Proof.
  intros Hm Hall Hx. unfold append. simpl.
  rewrite Hm, !length_app, (Forall2_length Hall). simpl.
  assert (H : Forall2 marked (items w ++ [x]) (items a ++ [m])).
  { apply Forall2_app; [exact Hall|]. constructor; [exact Hx|constructor]. }
  destruct (maxlen w <? length (items a) + 1)%nat;
    [apply Forall2_tl|]; exact H.
Qed.

Lemma flagged_finite w t z x :
  detect_anomaly w t = ret (true, z) -> In x (items w) ->
  PrimFloat.is_finite x = true.
Proof.
  intros Hdet Hin.
  destruct (PrimFloat.is_finite x) eqn:Hfin; [reflexivity|].
  apply nonfinite_iff in Hfin.
  destruct (Nat.lt_ge_cases (len w) 2) as [Hlt|Hge].
  - rewrite (detect_anomaly_short w t Hlt) in Hdet. discriminate.
  - rewrite (detect_anomaly_poisoned w t x Hge Hin Hfin) in Hdet.
    discriminate.
Qed.

Lemma update_aligned st data :
  aligned st -> exists st' r, update st data = ret (st', r) /\ aligned st'.
Proof.
  intros [Hm Hall].
  destruct (detect_anomaly_returns (append (window st) data)
              default_threshold) as [[b z] Hr].
  unfold update. rewrite Hr. simpl.
  do 2 eexists. split; [reflexivity|]. split; simpl; [exact Hm|].
  apply append_marked; [exact Hm|exact Hall|].
  destruct b; [right|now left]. split; [reflexivity|].
  apply (flagged_finite _ _ _ _ Hr), append_last_in.
  intros Hnil. unfold detect_anomaly, len in Hr. rewrite Hnil in Hr.
  discriminate.
Qed.

Lemma run_aligned stream : forall st,
  aligned st ->
  exists st' rs, run st stream = ret (st', rs) /\ aligned st'.
Proof.
  induction stream as [|data rest IH]; intros st Hst; simpl.
  - now exists st, [].
  - destruct (update_aligned st data Hst) as (st1 & r & -> & H1). simpl.
    destruct (IH st1 H1) as (st2 & rs & -> & H2). simpl.
    now exists st2, (r :: rs).
Qed.

Lemma marked_prefill n :
  Forall2 marked (repeat F.zero n) (repeat F.nan n).
Proof.
  induction n as [|n IH]; simpl; constructor; [now left|exact IH].
Qed.

(** Property X7. Whatever the samples, [anomalies] stays in step with
    [window]: same bound, same length, and at each position the marker is
    NaN or is the window's own value there, a finite number. *)
Theorem anomalies_follow_window (n : Z) (stream : list float) :
  (0 <= n)%Z ->
  exists st0 st rs,
    init n = ret st0 /\
    run st0 stream = ret (st, rs) /\
    maxlen (anomalies st) = maxlen (window st) /\
    len (anomalies st) = len (window st) /\
    Forall2 marked (items (window st)) (items (anomalies st)).
Proof.
  intros Hn. eexists. 
  destruct (run_aligned stream
              (State (Deque (repeat F.zero (Z.to_nat n)) (Z.to_nat n))
                     (Deque (repeat F.nan (Z.to_nat n)) (Z.to_nat n))))
    as (st & rs & Hrun & Hm & Hall).
  { split; [reflexivity|apply marked_prefill]. }
  exists st, rs. split; [apply init_nonneg, Hn|].
  split; [exact Hrun|]. split; [exact Hm|]. split; [|exact Hall].
  unfold len. symmetry. apply (Forall2_length Hall).
Qed.

Lemma anomalies_follow_window_witness :
  exists st0 st rs,
    init 100 = ret st0 /\
    run st0 [20; 1] = ret (st, rs) /\
    maxlen (anomalies st) = maxlen (window st) /\
    len (anomalies st) = len (window st) /\
    Forall2 marked (items (window st)) (items (anomalies st)).
Proof.
  exact (anomalies_follow_window 100 [20; 1]
           ltac:(vm_compute; discriminate)).
Defined.

(** Property X8. A window built with size 0 or 1 never holds two values:
    the program runs, every sample is classified (False, 0.0) and every
    marker is NaN. *)
Theorem tiny_window_never_flags (n : Z) (stream : list float) :
  (0 <= n <= 1)%Z ->
  exists st0 st,
    init n = ret st0 /\
    run st0 stream = ret (st, repeat (false, F.zero) (length stream)) /\
    window st = extend (window st0) stream /\
    anomalies st = extend (anomalies st0) (repeat F.nan (length stream)).
Proof.
  intros Hn.
  set (N := Z.to_nat n).
  set (st0 := State (Deque (repeat F.zero N) N) (Deque (repeat F.nan N) N)).
  assert (Hb : bounded (window st0)).
  { unfold bounded, len. simpl. rewrite repeat_length. lia. }
  destruct (run_markers stream st0) as (rs & Hrun & Hall).
  assert (Hticks : Forall (fun w' => len w' < 2) (ticks (window st0) stream)).
  { assert (HN : maxlen (window st0) <= 1) by (simpl; unfold N; lia).
    apply ticks_Forall. intros pre post _ _.
    pose proof (extend_bounded pre _ Hb) as Hb'. unfold bounded in Hb'.
    rewrite extend_maxlen in Hb'. lia. }
  assert (Hrs : rs = repeat (false, F.zero)
                       (length (ticks (window st0) stream))).
  { refine (Forall2_constant _ (fun w' => len w' < 2) _ _ _ _ Hall Hticks).
    intros w' r Hlt HR. rewrite (detect_anomaly_short w' _ Hlt) in HR.
    now injection HR. }
  rewrite ticks_length in Hrs. subst rs.
  rewrite markers_unflagged in Hrun.
  exists st0. eexists. split; [apply init_nonneg; lia|].
  split; [exact Hrun|]. split; reflexivity.
Qed.

Lemma tiny_window_never_flags_witness :
  exists st0 st,
    init 1 = ret st0 /\
    run st0 [20; 30] = ret (st, repeat (false, F.zero) 2) /\
    window st = extend (window st0) [20; 30] /\
    anomalies st = extend (anomalies st0) (repeat F.nan 2).
Proof.
  assert (Hn : (0 <= 1 <= 1)%Z) by lia.
  exact (tiny_window_never_flags 1 [20; 30] Hn).
Defined.
End Loop.
